(** * MapSearch: session state and event handlers of the map search view

    A shallow embedding of [src/components/MapSearch.tsx].  The React
    component keeps five pieces of state ([currentPosition], [map],
    [searchQuery], [searchResults], [selectedPlace]), one ref
    ([searchBoxRef]) and the two flags returned by [useJsApiLoader].
    Every handler of the component is a function in a small monad that
    threads this state, records the calls made to the outside world
    (map panning, provider requests, alerts, console output) and may end
    with a JavaScript exception.  The JSX of the component is a pure
    function [render] from the state to a tree of view records. *)

From Stdlib Require Import Floats String List Bool.
Import ListNotations.

Set Warnings "-inexact-float".

#[local] Open Scope string_scope.
#[local] Open Scope list_scope.
#[local] Open Scope bool_scope.

Module MapSearch.

(** ** Data of the mapping SDK and of the browser *)

(** A JavaScript [number] is an IEEE 754 double. *)
Definition number := float.

(** [google.maps.LatLngLiteral]; coordinates handed out by the SDK as
    [google.maps.LatLng] objects carry the same two numbers. *)
Record LatLng := mkLatLng { lat : number; lng : number }.

(** [google.maps.places.PlaceGeometry]; only [location] is read. *)
Record PlaceGeometry := mkGeometry { location : option LatLng }.

(** [google.maps.places.PlaceResult], restricted to the fields the
    component reads.  Every field is optional in the SDK's typing. *)
Record PlaceResult := mkPlace {
  place_id : option string;
  name : option string;
  vicinity : option string;
  formatted_address : option string;
  rating : option number;
  user_ratings_total : option number;
  geometry : option PlaceGeometry
}.

(** [google.maps.places.PlacesServiceStatus]. *)
Inductive PlacesServiceStatus :=
| OK | ZERO_RESULTS | INVALID_REQUEST | OVER_QUERY_LIMIT
| REQUEST_DENIED | UNKNOWN_ERROR | NOT_FOUND.

(** The enumeration's members are the strings of their own names; this
    is what a template literal prints. *)
Definition status_text (s : PlacesServiceStatus) : string :=
  match s with
  | OK => "OK"
  | ZERO_RESULTS => "ZERO_RESULTS"
  | INVALID_REQUEST => "INVALID_REQUEST"
  | OVER_QUERY_LIMIT => "OVER_QUERY_LIMIT"
  | REQUEST_DENIED => "REQUEST_DENIED"
  | UNKNOWN_ERROR => "UNKNOWN_ERROR"
  | NOT_FOUND => "NOT_FOUND"
  end.

(** [google.maps.places.PlaceSearchRequest] as built by [handleSearch]. *)
Record PlaceSearchRequest := mkRequest {
  req_location : LatLng;
  req_radius : number;
  req_keyword : string
}.

(** The map instance is an opaque handle owned by the SDK. *)
Record Map := mkMap { map_handle : nat }.

(** The autocomplete widget; [getPlaces] is what its method of the same
    name returns at the time the handler runs. *)
Record SearchBox := mkSearchBox { getPlaces : option (list PlaceResult) }.

(** [GeolocationPosition.coords]. *)
Record GeolocationCoordinates := mkCoords { latitude : number; longitude : number }.
Record GeolocationPosition := mkPosition { coords : GeolocationCoordinates }.

(** ** JavaScript idioms *)

(** Truthiness of a string: only the empty string is falsy. *)
Definition truthy_string (s : string) : bool :=
  match s with EmptyString => false | _ => true end.

(** Truthiness of a number: [0], [-0] and [NaN] are falsy. *)
Definition truthy_number (x : number) : bool :=
  negb (PrimFloat.eqb x 0%float || PrimFloat.is_nan x).

(** Truthiness of [T | null | undefined] for an object type [T]. *)
Definition present {A : Type} (o : option A) : bool :=
  match o with Some _ => true | None => false end.

(** [a || b] on optional strings. *)
Definition or_string (a b : option string) : option string :=
  match a with
  | Some s => if truthy_string s then a else b
  | None => b
  end.

(** [${x}] in a template literal, for an optional string. *)
Definition interpolate (x : option string) : string :=
  match x with Some s => s | None => "undefined" end.

(** [a === b] on optional strings. *)
Definition strict_eq (a b : option string) : bool :=
  match a, b with
  | Some x, Some y => String.eqb x y
  | None, None => true
  | _, _ => false
  end.

(** [place.geometry?.location]. *)
Definition geometry_location (place : PlaceResult) : option LatLng :=
  match geometry place with
  | Some g => location g
  | None => None
  end.

(** ** Session state *)

Record State := mkState {
  currentPosition : option LatLng;
  map : option Map;
  searchQuery : string;
  searchResults : list PlaceResult;
  selectedPlace : option PlaceResult;
  searchBoxRef : option SearchBox;
  isLoaded : bool;
  loadError : bool
}.

(** The state of a freshly mounted component. *)
Definition initial (loaded failed : bool) : State :=
  {| currentPosition := None; map := None; searchQuery := "";
     searchResults := []; selectedPlace := None; searchBoxRef := None;
     isLoaded := loaded; loadError := failed |}.

(** ** Calls to the outside world *)

Inductive Effect :=
| PanTo (m : Map) (target : LatLng)
| SetCenter (m : Map) (target : LatLng)
| TriggerResize (m : Map)
| NearbySearch (m : Map) (request : PlaceSearchRequest)
| Alert (message : string)
| ConsoleError (args : list string)
| ConsoleWarn (message : string).

Inductive JsError := TypeError (reading : string).

Inductive Completion (A : Type) :=
| Normal (a : A)
| Throw (e : JsError).
Arguments Normal {A} a.
Arguments Throw {A} e.

(** ** The handler monad

    A handler reads and updates the state, appends to the log of effects
    and completes normally or by throwing.  A state update issued before
    a throw stays issued: [setState] enqueues it at the call. *)
Definition Handler (A : Type) : Type :=
  State -> Completion A * State * list Effect.

Definition ret {A} (a : A) : Handler A := fun st => (Normal a, st, []).

Definition bind {A B} (h : Handler A) (k : A -> Handler B) : Handler B :=
  fun st =>
    match h st with
    | (Normal a, st1, log1) =>
        match k a st1 with
        | (c, st2, log2) => (c, st2, log1 ++ log2)
        end
    | (Throw e, st1, log1) => (Throw e, st1, log1)
    end.

Declare Scope handler_scope.
Delimit Scope handler_scope with handler.
Notation "x <- h ;; k" := (bind h (fun x => k))
  (at level 61, h at next level, right associativity) : handler_scope.
Notation "h ;; k" := (bind h (fun _ => k))
  (at level 61, right associativity) : handler_scope.
#[local] Open Scope handler_scope.

Definition get : Handler State := fun st => (Normal st, st, []).
Definition emit (e : Effect) : Handler unit := fun st => (Normal tt, st, [e]).
Definition throw {A} (e : JsError) : Handler A := fun st => (Throw e, st, []).

(** Projections of a run. *)
Definition completion {A} (r : Completion A * State * list Effect) := fst (fst r).
Definition state_of {A} (r : Completion A * State * list Effect) : State := snd (fst r).
Definition effects {A} (r : Completion A * State * list Effect) : list Effect := snd r.

(** The [useState] setters. *)
Definition setCurrentPosition (v : option LatLng) : Handler unit :=
  fun st =>
    (Normal tt,
     {| currentPosition := v; map := map st; searchQuery := searchQuery st;
        searchResults := searchResults st; selectedPlace := selectedPlace st;
        searchBoxRef := searchBoxRef st; isLoaded := isLoaded st;
        loadError := loadError st |}, []).

Definition setMap (v : option Map) : Handler unit :=
  fun st =>
    (Normal tt,
     {| currentPosition := currentPosition st; map := v;
        searchQuery := searchQuery st; searchResults := searchResults st;
        selectedPlace := selectedPlace st; searchBoxRef := searchBoxRef st;
        isLoaded := isLoaded st; loadError := loadError st |}, []).

Definition setSearchResults (v : list PlaceResult) : Handler unit :=
  fun st =>
    (Normal tt,
     {| currentPosition := currentPosition st; map := map st;
        searchQuery := searchQuery st; searchResults := v;
        selectedPlace := selectedPlace st; searchBoxRef := searchBoxRef st;
        isLoaded := isLoaded st; loadError := loadError st |}, []).

Definition setSelectedPlace (v : option PlaceResult) : Handler unit :=
  fun st =>
    (Normal tt,
     {| currentPosition := currentPosition st; map := map st;
        searchQuery := searchQuery st; searchResults := searchResults st;
        selectedPlace := v; searchBoxRef := searchBoxRef st;
        isLoaded := isLoaded st; loadError := loadError st |}, []).

(** [searchBoxRef.current = ref]. *)
Definition setSearchBoxRef (v : option SearchBox) : Handler unit :=
  fun st =>
    (Normal tt,
     {| currentPosition := currentPosition st; map := map st;
        searchQuery := searchQuery st; searchResults := searchResults st;
        selectedPlace := selectedPlace st; searchBoxRef := v;
        isLoaded := isLoaded st; loadError := loadError st |}, []).

(** [map?.panTo(target)], with [map] read from the state. *)
Definition panMap (target : LatLng) : Handler unit :=
  st <- get ;;
  match map st with
  | Some m => emit (PanTo m target)
  | None => ret tt
  end.

(** ** B. Location acquisition (the mount effect) *)

(** The literal [{ lat: 35.681236, lng: 139.767125 }] (Tokyo station). *)
Definition defaultPosition : LatLng :=
  {| lat := 35.681236%float; lng := 139.767125%float |}.

(** How [getCurrentPosition] ends: it calls the success callback with a
    position or the error callback. *)
Inductive GeolocationOutcome :=
| GeoSuccess (position : GeolocationPosition)
| GeoFailure.

(** The effect of [useEffect(..., [])].  [geolocation] is
    [navigator.geolocation]: [None] when the browser has none, otherwise
    the outcome that its one request ends with. *)
Definition acquirePosition (geolocation : option GeolocationOutcome) : Handler unit :=
  match geolocation with
  | Some (GeoSuccess position) =>
      setCurrentPosition
        (Some {| lat := latitude (coords position);
                 lng := longitude (coords position) |})
  | Some GeoFailure =>
      setCurrentPosition (Some defaultPosition) ;;
      emit (ConsoleWarn "現在地の取得に失敗しました。")
  | None =>
      setCurrentPosition (Some defaultPosition)
  end.

(** ** C. Keyword search *)

(** The guard of [handleSearch]:
    [!map || !searchQuery || !currentPosition || !isLoaded]. *)
Definition search_blocked (st : State) : bool :=
  negb (present (map st)) || negb (truthy_string (searchQuery st))
  || negb (present (currentPosition st)) || negb (isLoaded st).

(** [handleSearch]: behind the guard, one [nearbySearch] request on the
    mounted map.  The callback given to the request is
    [nearbySearchCallback] below, closed over the same [map]. *)
Definition handleSearch : Handler unit :=
  st <- get ;;
  if search_blocked st then ret tt
  else
    match map st, currentPosition st with
    | Some m, Some position =>
        emit (NearbySearch m {| req_location := position;
                                req_radius := 5000%float;
                                req_keyword := searchQuery st |})
    | _, _ => ret tt
    end.

(** [results[0]] followed by a property read: reading a property of
    [undefined] throws. *)
Definition first_result (results : list PlaceResult) : Handler PlaceResult :=
  match nth_error results 0 with
  | Some r => ret r
  | None =>
      throw (TypeError "Cannot read properties of undefined (reading 'geometry')")
  end.

(** The callback of [service.nearbySearch].  [results] is [None] for
    [null]; an array, even an empty one, is truthy, so the first branch
    is [status === OK && results]. *)
Definition nearbySearchCallback (m : Map)
    (results : option (list PlaceResult)) (status : PlacesServiceStatus)
  : Handler unit :=
  match status, results with
  | OK, Some results =>
      setSearchResults results ;;
      r0 <- first_result results ;;
      match geometry_location r0 with
      | Some target => emit (PanTo m target)
      | None => ret tt
      end
  | _, _ =>
      emit (ConsoleError ["検索エラー:"; status_text status]) ;;
      emit (Alert ("スポット検索に失敗しました: " ++ status_text status)%string) ;;
      setSearchResults []
  end.

(** ** Autocomplete pick *)

Definition onPlacesChanged : Handler unit :=
  st <- get ;;
  match searchBoxRef st with
  | None => ret tt
  | Some box =>
      match getPlaces box with
      | None | Some [] => ret tt
      | Some (firstPlace :: _) =>
          match geometry_location firstPlace with
          | Some loc =>
              let newCenter := {| lat := lat loc; lng := lng loc |} in
              panMap newCenter ;;
              setCurrentPosition (Some newCenter) ;;
              setSearchResults [firstPlace] ;;
              setSelectedPlace (Some firstPlace)
          | None =>
              emit (ConsoleError ["場所のジオメトリ情報が見つかりません。"])
          end
      end
  end.

(** ** Map mount and unmount *)

(** [onLoad]; [google_maps] is the test [window.google?.maps]. *)
Definition onLoad (m : Map) (google_maps : bool) : Handler unit :=
  st <- get ;;
  setMap (Some m) ;;
  (if google_maps then emit (TriggerResize m) else ret tt) ;;
  match currentPosition st with
  | Some position => emit (SetCenter m position)
  | None => ret tt
  end.

Definition onUnmount : Handler unit := setMap None.

(** ** Click handlers of the view *)

(** [onClick] of a result marker. *)
Definition markerClick (place : PlaceResult) : Handler unit :=
  setSelectedPlace (Some place).

(** [onClick] of a list row. *)
Definition rowClick (place : PlaceResult) : Handler unit :=
  setSelectedPlace (Some place) ;;
  match geometry_location place with
  | Some target => panMap target
  | None => ret tt
  end.

(** [onCloseClick] of the info window. *)
Definition closeClick : Handler unit := setSelectedPlace None.

(** ** D. Rendering *)

(** What [{place.rating && (...)}] leaves in the tree: nothing for
    [undefined], the number itself for a falsy number ([0] or [NaN],
    which React prints), the rating line otherwise. *)
Inductive RatingNode :=
| NoRating
| BareNumber (x : number)
| RatingLine (stars : number) (total : option number).

Definition rating_node (place : PlaceResult) : RatingNode :=
  match rating place with
  | None => NoRating
  | Some r =>
      if truthy_number r then RatingLine r (user_ratings_total place)
      else BareNumber r
  end.

Record Marker := mkMarker {
  marker_key : option string;
  marker_position : LatLng;
  marker_title : option string;
  marker_label : option string;
  marker_onClick : option (Handler unit)
}.

Record InfoWindow := mkInfoWindow {
  info_position : LatLng;
  info_onCloseClick : Handler unit;
  info_heading : option string;
  info_address : option string;
  info_rating : RatingNode;
  info_href : string;
  info_link_text : string
}.

Record GoogleMap := mkGoogleMap {
  center : LatLng;
  zoom : number;
  position_marker : Marker;
  result_markers : list Marker;
  info_window : option InfoWindow
}.

Record Row := mkRow {
  row_key : option string;
  row_highlighted : bool;
  row_onClick : Handler unit;
  row_name : option string;
  row_address : option string;
  row_rating : RatingNode
}.

Record ResultList := mkResultList {
  result_count : nat;
  rows : list Row;
  empty_message : option string
}.

Inductive MapPane :=
| MapShown (g : GoogleMap)
| Locating (message : string).

Inductive View :=
| LoadFailed (message : string)
| Loading (message : string)
| Page (pane : MapPane) (results : ResultList).

(** One marker per result that has a location. *)
Definition render_marker (place : PlaceResult) : list Marker :=
  match geometry_location place with
  | Some loc =>
      [ {| marker_key := place_id place; marker_position := loc;
           marker_title := name place; marker_label := None;
           marker_onClick := Some (markerClick place) |} ]
  | None => []
  end.

(** The href of the outbound link. *)
Definition place_url (place : PlaceResult) : string :=
  ("https://www.google.com/maps/search/?api=1&query=" ++ interpolate (name place)
   ++ "&query_place_id=" ++ interpolate (place_id place))%string.

(** The info window: present when [selectedPlace] is set and has a
    location. *)
Definition render_info_window (selected : option PlaceResult) : option InfoWindow :=
  match selected with
  | Some place =>
      match geometry_location place with
      | Some loc =>
          Some {| info_position := loc;
                  info_onCloseClick := closeClick;
                  info_heading := name place;
                  info_address := or_string (vicinity place) (formatted_address place);
                  info_rating := rating_node place;
                  info_href := place_url place;
                  info_link_text := "Googleマップで見る" |}
      | None => None
      end
  | None => None
  end.

(** [selectedPlace?.place_id]. *)
Definition selected_id (selected : option PlaceResult) : option string :=
  match selected with
  | Some place => place_id place
  | None => None
  end.

Definition render_row (selected : option PlaceResult) (place : PlaceResult) : Row :=
  {| row_key := place_id place;
     row_highlighted := strict_eq (selected_id selected) (place_id place);
     row_onClick := rowClick place;
     row_name := name place;
     row_address := or_string (vicinity place) (formatted_address place);
     row_rating := rating_node place |}.

Definition render_list (st : State) : ResultList :=
  {| result_count := length (searchResults st);
     rows := List.map (render_row (selectedPlace st)) (searchResults st);
     empty_message :=
       match searchResults st with
       | [] => Some "結果がありません。検索バーで場所を入力してください。"
       | _ :: _ => None
       end |}.

Definition render_map (st : State) : MapPane :=
  match currentPosition st with
  | Some position =>
      MapShown
        {| center := position;
           zoom := 15%float;
           position_marker :=
             {| marker_key := None; marker_position := position;
                marker_title := None; marker_label := Some "📍";
                marker_onClick := None |};
           result_markers := flat_map render_marker (searchResults st);
           info_window := render_info_window (selectedPlace st) |}
  | None => Locating "現在地情報を取得中です..."
  end.

Definition render (st : State) : View :=
  if loadError st then LoadFailed "地図のロード中にエラーが発生しました。"
  else if negb (isLoaded st) then Loading "地図を読み込み中..."
  else Page (render_map st) (render_list st).

(** The info window of a view, if it shows one. *)
Definition overlay (v : View) : option InfoWindow :=
  match v with
  | Page (MapShown g) _ => info_window g
  | _ => None
  end.

(** ** Events

    Everything that can happen to a mounted component, each with the
    handler it runs. *)
Inductive Event :=
| Mounted (geolocation : option GeolocationOutcome)
| MapLoaded (m : Map) (google_maps : bool)
| MapUnmounted
| SearchBoxLoaded (ref : SearchBox)
| SearchRequested
| SearchResponded (m : Map) (results : option (list PlaceResult))
    (status : PlacesServiceStatus)
| PlacesChanged
| MarkerClicked (place : PlaceResult)
| RowClicked (place : PlaceResult)
| OverlayClosed.

Definition handler_of (ev : Event) : Handler unit :=
  match ev with
  | Mounted geolocation => acquirePosition geolocation
  | MapLoaded m google_maps => onLoad m google_maps
  | MapUnmounted => onUnmount
  | SearchBoxLoaded ref => setSearchBoxRef (Some ref)
  | SearchRequested => handleSearch
  | SearchResponded m results status => nearbySearchCallback m results status
  | PlacesChanged => onPlacesChanged
  | MarkerClicked place => markerClick place
  | RowClicked place => rowClick place
  | OverlayClosed => closeClick
  end.

(** The state after an event. *)
Definition step (st : State) (ev : Event) : State :=
  state_of (handler_of ev st).

(** The targets of the [panTo] calls in a log. *)
Fixpoint pans (log : list Effect) : list LatLng :=
  match log with
  | [] => []
  | PanTo _ target :: rest => target :: pans rest
  | _ :: rest => pans rest
  end.

(** The provider requests in a log. *)
Fixpoint requests (log : list Effect) : list PlaceSearchRequest :=
  match log with
  | [] => []
  | NearbySearch _ request :: rest => request :: requests rest
  | _ :: rest => requests rest
  end.

(** The alerts in a log. *)
Fixpoint alerts (log : list Effect) : list string :=
  match log with
  | [] => []
  | Alert message :: rest => message :: alerts rest
  | _ :: rest => alerts rest
  end.

(** ** Observations used in the statements *)

(** [places[0]] as [onPlacesChanged] reads it: the first candidate of the
    autocomplete widget, when the widget is there and has one. *)
Definition first_candidate (st : State) : option PlaceResult :=
  match searchBoxRef st with
  | Some box =>
      match getPlaces box with
      | Some (firstPlace :: _) => Some firstPlace
      | _ => None
      end
  | None => None
  end.

(** [selectedPlace] is [null] or one of [searchResults]. *)
Definition selection_valid (st : State) : Prop :=
  match selectedPlace st with
  | Some place => In place (searchResults st)
  | None => True
  end.

(** The events the rendered view can produce: a marker exists for a
    result with a location, a row for every result. *)
Definition offered (st : State) (ev : Event) : Prop :=
  match ev with
  | MarkerClicked place =>
      In place (searchResults st) /\ geometry_location place <> None
  | RowClicked place => In place (searchResults st)
  | _ => True
  end.

Definition is_search_request (ev : Event) : bool :=
  match ev with SearchRequested => true | _ => false end.

Definition is_search_response (ev : Event) : bool :=
  match ev with SearchResponded _ _ _ => true | _ => false end.

Definition is_acquisition (ev : Event) : bool :=
  match ev with Mounted _ => true | _ => false end.

(** An autocomplete pick whose first candidate has a location. *)
Definition is_located_pick (st : State) (ev : Event) : bool :=
  match ev with
  | PlacesChanged =>
      match first_candidate st with
      | Some place => present (geometry_location place)
      | None => false
      end
  | _ => false
  end.

(** The state after a sequence of events. *)
Definition run_events (st : State) (evs : list Event) : State :=
  fold_left step evs st.

(** A sequence of events the rendered view can produce one after the
    other, with no search response among them. *)
Fixpoint offered_trace (st : State) (evs : list Event) : Prop :=
  match evs with
  | [] => True
  | ev :: rest =>
      offered st ev /\ is_search_response ev = false
      /\ offered_trace (step st ev) rest
  end.

(** What "the map pans to the coordinate of entry 0 when there is an
    entry, and does not pan otherwise" asks of a log. *)
Definition pans_to_first (results : list PlaceResult) (log : list Effect) : Prop :=
  match results with
  | r0 :: _ => exists c, geometry_location r0 = Some c /\ pans log = [c]
  | [] => pans log = []
  end.

(** ** Sample data *)

Definition cafeA : PlaceResult :=
  {| place_id := Some "p1"; name := Some "Cafe A"; vicinity := Some "1 Marunouchi";
     formatted_address := None; rating := Some 4.5%float;
     user_ratings_total := Some 120%float;
     geometry := Some {| location := Some {| lat := 35.6813%float; lng := 139.7672%float |} |} |}.

Definition cafeB : PlaceResult :=
  {| place_id := Some "p2"; name := Some "Cafe B"; vicinity := None;
     formatted_address := Some "2 Yaesu, Chuo, Tokyo"; rating := None;
     user_ratings_total := None;
     geometry := Some {| location := Some {| lat := 35.6805%float; lng := 139.7690%float |} |} |}.

(** A result the provider sent without geometry. *)
Definition kiosk : PlaceResult :=
  {| place_id := Some "p3"; name := Some "Kiosk"; vicinity := Some "Platform 5";
     formatted_address := None; rating := Some 3.5%float;
     user_ratings_total := Some 4%float; geometry := None |}.

(** A result whose rating is the number zero. *)
Definition stall : PlaceResult :=
  {| place_id := Some "p4"; name := Some "Stall"; vicinity := None;
     formatted_address := None; rating := Some 0%float;
     user_ratings_total := Some 0%float;
     geometry := Some {| location := Some {| lat := 35.6820%float; lng := 139.7660%float |} |} |}.

Definition theMap : Map := {| map_handle := 1 |}.

(** Loaded SDK, mounted map, fallback position, a query typed in. *)
Definition ready : State :=
  {| currentPosition := Some defaultPosition; map := Some theMap;
     searchQuery := "coffee"; searchResults := []; selectedPlace := None;
     searchBoxRef := Some {| getPlaces := None |};
     isLoaded := true; loadError := false |}.

(** The same with nothing typed. *)
Definition idle : State :=
  {| currentPosition := Some defaultPosition; map := Some theMap;
     searchQuery := ""; searchResults := []; selectedPlace := None;
     searchBoxRef := Some {| getPlaces := None |};
     isLoaded := true; loadError := false |}.

(** The user confirmed the suggestion [cafeA]. *)
Definition picking : State :=
  {| currentPosition := Some defaultPosition; map := Some theMap;
     searchQuery := "coffee"; searchResults := []; selectedPlace := None;
     searchBoxRef := Some {| getPlaces := Some [cafeA] |};
     isLoaded := true; loadError := false |}.

(** After the pick: [cafeA] is the one result and is selected. *)
Definition picked : State := step picking PlacesChanged.

(** Three results on display, none selected. *)
Definition listing : State :=
  step ready (SearchResponded theMap (Some [cafeA; kiosk; stall]) OK).

(** ** The application shell ([src/App.tsx]) *)

(** The props of [MapSearch]. *)
Record MapSearchProps := mkProps { apiKey : string }.

(** What [App] returns: the block that reports the missing key, or the
    page with its title and the [MapSearch] element. *)
Inductive AppView :=
| KeyMissing (heading hint : string)
| Shell (title : string) (child : MapSearchProps).

(** [App]; [env_key] is [import.meta.env.VITE_GOOGLE_MAPS_API_KEY].
    The test [!apiKey] holds for [undefined] and for the empty string. *)
Definition App (env_key : option string) : AppView :=
  match env_key with
  | Some key =>
      if negb (truthy_string key) then
        KeyMissing "エラー: APIキーが設定されていません"
                   ".env ファイルに VITE_GOOGLE_MAPS_API_KEY を設定してください。"
      else Shell "🗺️ スポット検索マップ" {| apiKey := key |}
  | None =>
      KeyMissing "エラー: APIキーが設定されていません"
                 ".env ファイルに VITE_GOOGLE_MAPS_API_KEY を設定してください。"
  end.

(** The argument of [useJsApiLoader] in [MapSearch]. *)
Record LoaderOptions := mkLoaderOptions {
  googleMapsApiKey : string;
  libraries : list string
}.

Definition loader_options (props : MapSearchProps) : LoaderOptions :=
  {| googleMapsApiKey := apiKey props; libraries := ["places"] |}.

(** ** Further observations *)

(** The result has a location, so it gets a marker. *)
Definition located (place : PlaceResult) : bool :=
  present (geometry_location place).

(** Calls made on a map instance. *)
Definition touches_map (e : Effect) : bool :=
  match e with
  | PanTo _ _ | SetCenter _ _ | TriggerResize _ | NearbySearch _ _ => true
  | Alert _ | ConsoleError _ | ConsoleWarn _ => false
  end.

(** Events that bring a map instance of their own: the mount of the map
    and the callback of a request, which closes over the map the request
    was made on. *)
Definition carries_map (ev : Event) : bool :=
  match ev with
  | MapLoaded _ _ | SearchResponded _ _ _ => true
  | _ => false
  end.

(** The marker the view shows for [cafeA]. *)
Definition cafeA_marker : Marker :=
  {| marker_key := Some "p1";
     marker_position := {| lat := 35.6813%float; lng := 139.7672%float |};
     marker_title := Some "Cafe A"; marker_label := None;
     marker_onClick := Some (markerClick cafeA) |}.

(** A session: no geolocation, the map mounts, the search box loads
    holding the suggestion [cafeA], the user confirms it, clicks its
    marker and closes the overlay. *)
Definition session : list Event :=
  [ Mounted None; MapLoaded theMap true;
    SearchBoxLoaded {| getPlaces := Some [cafeA] |};
    PlacesChanged; MarkerClicked cafeA; OverlayClosed ].

(** Unfolds the handlers down to the state record. *)
Ltac run :=
  unfold step, handler_of, state_of, effects, completion,
    handleSearch, nearbySearchCallback, onPlacesChanged, onLoad, onUnmount,
    acquirePosition, markerClick, rowClick, closeClick, first_result, panMap,
    bind, get, emit, ret, throw, setCurrentPosition, setMap, setSearchResults,
    setSelectedPlace, setSearchBoxRef;
  cbn.

(** * Properties *)

(** ** The monad *)

Lemma bind_ret_l {A B} (a : A) (k : A -> Handler B) (st : State) :
  bind (ret a) k st = k a st.
Proof.
  unfold bind, ret. destruct (k a st) as [[c st2] log2]. reflexivity.
Qed.

Lemma bind_throw {A B} (e : JsError) (k : A -> Handler B) (st : State) :
  bind (throw e) k st = (Throw e, st, []).
Proof. reflexivity. Qed.

Lemma bind_assoc {A B C} (h : Handler A) (k : A -> Handler B)
    (l : B -> Handler C) (st : State) :
  bind (bind h k) l st = bind h (fun a => bind (k a) l) st.
Proof.
  unfold bind. destruct (h st) as [[[a|e] st1] log1]; [|reflexivity].
  destruct (k a st1) as [[[b|e] st2] log2]; [|reflexivity].
  destruct (l b st2) as [[c st3] log3]. now rewrite app_assoc.
Qed.

(** ** The search guard *)

Lemma search_blocked_true (st : State) :
  search_blocked st = true <->
  map st = None \/ searchQuery st = "" \/ currentPosition st = None
  \/ isLoaded st = false.
Proof.
  unfold search_blocked.
  destruct (map st), (searchQuery st), (currentPosition st), (isLoaded st);
    cbn; split; intros H; try reflexivity; try discriminate;
    try (now auto);
    repeat (destruct H as [H|H]; try discriminate).
Qed.

(** Past the guard the request goes out, centred on the current
    position with the typed keyword and a radius of 5000. *)
Lemma handleSearch_sends (st : State) :
  search_blocked st = false ->
  exists m position,
    map st = Some m /\ currentPosition st = Some position /\
    handleSearch st =
      (Normal tt, st,
       [NearbySearch m {| req_location := position; req_radius := 5000%float;
                          req_keyword := searchQuery st |}]).
Proof.
  intros Hb. unfold handleSearch, bind, get. cbn. rewrite Hb.
  unfold search_blocked in Hb.
  destruct (map st) as [m|]; [|discriminate].
  destruct (currentPosition st) as [position|].
  - exists m, position. repeat split; reflexivity.
  - cbn in Hb. destruct (truthy_string (searchQuery st)); discriminate.
Qed.

Example handleSearch_ready :
  requests (effects (handleSearch ready)) =
    [ {| req_location := defaultPosition; req_radius := 5000%float;
         req_keyword := "coffee" |} ].
Proof. reflexivity. Qed.

(** The status can be read back from its text, so a message that ends
    with the text names the status. *)
Lemma status_text_inj (s t : PlacesServiceStatus) :
  status_text s = status_text t -> s = t.
Proof. destruct s, t; cbn; intros H; first [reflexivity | discriminate H]. Qed.

(** C7: whatever the outcome of the one geolocation request, the current
    position ends up set: to the reported latitude and longitude on
    success, to the fixed default on failure and when the browser has no
    geolocation; it is never left unset. *)
Theorem position_set_after_acquisition (st : State) :
  (forall position,
      currentPosition (step st (Mounted (Some (GeoSuccess position)))) =
        Some {| lat := latitude (coords position);
                lng := longitude (coords position) |})
  /\ currentPosition (step st (Mounted (Some GeoFailure))) = Some defaultPosition
  /\ currentPosition (step st (Mounted None)) = Some defaultPosition
  /\ (forall geolocation,
         currentPosition (step st (Mounted geolocation)) <> None).
Proof.
  repeat split.
  intros [[position|]|]; run; discriminate.
Qed.

(** C6: a keyword search with an empty query, no current position, no
    mounted map or an SDK that is not loaded sends no request to the
    provider and leaves the whole state as it was. *)
Theorem blocked_search_is_noop (st : State) :
  searchQuery st = "" \/ currentPosition st = None \/ map st = None
  \/ isLoaded st = false ->
  requests (effects (handleSearch st)) = []
  /\ state_of (handleSearch st) = st
  /\ handleSearch st = (Normal tt, st, []).
Proof.
  intros H.
  assert (Hb : search_blocked st = true).
  { apply search_blocked_true. tauto. }
  assert (Hrun : handleSearch st = (Normal tt, st, [])).
  { unfold handleSearch, bind, get. cbn. rewrite Hb. reflexivity. }
  rewrite Hrun. repeat split.
Qed.

Lemma blocked_search_is_noop_witness :
  requests (effects (handleSearch idle)) = []
  /\ state_of (handleSearch idle) = idle
  /\ handleSearch idle = (Normal tt, idle, []).
Proof.
  apply (blocked_search_is_noop idle). left. reflexivity.
Defined.

(** C5: when the provider reports a status other than OK, the result
    list becomes empty whatever it held, one alert is raised whose text
    ends with the name of that status, and no further request is sent. *)
Theorem failed_search_clears_results (m : Map)
    (results : option (list PlaceResult)) (status : PlacesServiceStatus)
    (st : State) :
  status <> OK ->
  searchResults (state_of (nearbySearchCallback m results status st)) = []
  /\ alerts (effects (nearbySearchCallback m results status st)) =
       [("スポット検索に失敗しました: " ++ status_text status)%string]
  /\ requests (effects (nearbySearchCallback m results status st)) = []
  /\ completion (nearbySearchCallback m results status st) = Normal tt.
Proof.
  intros Hs.
  destruct status; try (now contradiction Hs);
    destruct results; run; repeat split.
Qed.

Lemma failed_search_clears_results_witness :
  searchResults
    (state_of (nearbySearchCallback theMap None ZERO_RESULTS listing)) = []
  /\ alerts (effects (nearbySearchCallback theMap None ZERO_RESULTS listing)) =
       ["スポット検索に失敗しました: ZERO_RESULTS"]
  /\ requests (effects (nearbySearchCallback theMap None ZERO_RESULTS listing)) = []
  /\ completion (nearbySearchCallback theMap None ZERO_RESULTS listing) = Normal tt.
Proof.
  apply (failed_search_clears_results theMap None ZERO_RESULTS listing).
  discriminate.
Defined.

(** C9: closing the overlay sets the selected place to none and changes
    nothing else: the result list, the current position, the query text
    and every other part of the state stay as they were, and nothing is
    done to the map. *)
Theorem close_clears_selection_only (st : State) :
  selectedPlace (step st OverlayClosed) = None
  /\ searchResults (step st OverlayClosed) = searchResults st
  /\ currentPosition (step st OverlayClosed) = currentPosition st
  /\ searchQuery (step st OverlayClosed) = searchQuery st
  /\ map (step st OverlayClosed) = map st
  /\ searchBoxRef (step st OverlayClosed) = searchBoxRef st
  /\ isLoaded (step st OverlayClosed) = isLoaded st
  /\ loadError (step st OverlayClosed) = loadError st
  /\ effects (closeClick st) = [].
Proof.
  run. repeat split.
Qed.

(** ** Successful search *)

(** The callback on an OK response with an empty list: the empty list is
    stored, then reading [results[0].geometry] throws. *)
Lemma empty_response_throws (m : Map) (st : State) :
  exists reading,
    completion (nearbySearchCallback m (Some []) OK st) = Throw (TypeError reading)
    /\ searchResults (state_of (nearbySearchCallback m (Some []) OK st)) = []
    /\ effects (nearbySearchCallback m (Some []) OK st) = [].
Proof.
  eexists. run. repeat split.
Qed.

(** C1, as stated, fails: an OK response whose entry 0 has no geometry
    stores the entries and does not pan. *)
Lemma search_success_no_pan_without_geometry :
  searchResults (state_of (nearbySearchCallback theMap (Some [kiosk; cafeA]) OK ready))
    = [kiosk; cafeA]
  /\ pans (effects (nearbySearchCallback theMap (Some [kiosk; cafeA]) OK ready)) = []
  /\ ~ pans_to_first [kiosk; cafeA]
         (effects (nearbySearchCallback theMap (Some [kiosk; cafeA]) OK ready)).
Proof.
  split; [reflexivity|]. split; [reflexivity|].
  intros [c [Hloc _]]. cbn in Hloc. discriminate Hloc.
Qed.

(** C1, amended: on an OK response with a list of N entries the result
    list becomes exactly that list, in the order of the response; when
    N >= 1 and entry 0 has geometry the map pans once, to the coordinate
    of entry 0; when entry 0 has no geometry, and when N = 0, the map
    does not pan. *)
Theorem search_success_sets_results (m : Map) (results : list PlaceResult)
    (st : State) :
  searchResults (state_of (nearbySearchCallback m (Some results) OK st)) = results
  /\ effects (nearbySearchCallback m (Some results) OK st) =
       match results with
       | r0 :: _ =>
           match geometry_location r0 with
           | Some c => [PanTo m c]
           | None => []
           end
       | [] => []
       end
  /\ (forall r0 rest c,
        results = r0 :: rest -> geometry_location r0 = Some c ->
        pans (effects (nearbySearchCallback m (Some results) OK st)) = [c])
  /\ (results = [] ->
        pans (effects (nearbySearchCallback m (Some results) OK st)) = []).
Proof.
  assert (Hlog : effects (nearbySearchCallback m (Some results) OK st) =
                 match results with
                 | r0 :: _ =>
                     match geometry_location r0 with
                     | Some c => [PanTo m c]
                     | None => []
                     end
                 | [] => []
                 end).
  { destruct results as [|r0 rest]; run; [reflexivity|].
    destruct (geometry_location r0); reflexivity. }
  split.
  - destruct results as [|r0 rest]; run; [reflexivity|].
    destruct (geometry_location r0); reflexivity.
  - split; [exact Hlog|]. rewrite Hlog. split.
    + intros r0 rest c -> Hc. rewrite Hc. reflexivity.
    + intros ->. reflexivity.
Qed.

Lemma search_success_sets_results_witness :
  pans (effects (nearbySearchCallback theMap (Some [cafeA]) OK ready)) =
    [ {| lat := 35.6813%float; lng := 139.7672%float |} ].
Proof.
  exact (proj1 (proj2 (proj2
           (search_success_sets_results theMap [cafeA] ready)))
           cafeA [] _ eq_refl eq_refl).
Defined.

(** The scenario of the specification: one cafe comes back for
    "coffee"; it is listed with its rating and the map pans to it. *)
Example coffee_scenario :
  let st := step ready (SearchResponded theMap (Some [cafeA]) OK) in
  length (searchResults st) = 1
  /\ List.map row_name (rows (render_list st)) = [Some "Cafe A"]
  /\ List.map row_rating (rows (render_list st)) =
       [RatingLine 4.5%float (Some 120%float)].
Proof. repeat split. Qed.

(** The scenario with no result: the list is emptied, the alert is
    shown and the view shows the message for an empty list. *)
Example zero_results_scenario :
  let st := step listing (SearchResponded theMap None ZERO_RESULTS) in
  searchResults st = []
  /\ empty_message (render_list st) =
       Some "結果がありません。検索バーで場所を入力してください。".
Proof. repeat split. Qed.

(** ** Autocomplete pick *)

(** The three ways [onPlacesChanged] runs. *)
Lemma onPlacesChanged_no_candidate (st : State) :
  first_candidate st = None -> onPlacesChanged st = (Normal tt, st, []).
Proof.
  unfold first_candidate, onPlacesChanged, bind, get. cbn.
  destruct (searchBoxRef st) as [box|]; [|reflexivity].
  destruct (getPlaces box) as [[|firstPlace others]|];
    first [reflexivity | discriminate].
Qed.

Lemma onPlacesChanged_unlocated (st : State) (place : PlaceResult) :
  first_candidate st = Some place -> geometry_location place = None ->
  onPlacesChanged st =
    (Normal tt, st, [ConsoleError ["場所のジオメトリ情報が見つかりません。"]]).
Proof.
  unfold first_candidate, onPlacesChanged, bind, get. cbn.
  destruct (searchBoxRef st) as [box|]; [|discriminate].
  destruct (getPlaces box) as [[|firstPlace others]|]; try discriminate.
  intros Hc Hloc. injection Hc as ->. rewrite Hloc. reflexivity.
Qed.

Lemma onPlacesChanged_located (st : State) (place : PlaceResult) (loc : LatLng) :
  first_candidate st = Some place -> geometry_location place = Some loc ->
  onPlacesChanged st =
    (Normal tt,
     {| currentPosition := Some loc; map := map st;
        searchQuery := searchQuery st; searchResults := [place];
        selectedPlace := Some place; searchBoxRef := searchBoxRef st;
        isLoaded := isLoaded st; loadError := loadError st |},
     match map st with Some m => [PanTo m loc] | None => [] end).
Proof.
  unfold first_candidate.
  destruct st as [position m query results selected [[places]|] loaded failed];
    cbn; [|discriminate].
  destruct places as [[|firstPlace others]|]; try discriminate.
  intros Hc Hloc. injection Hc as ->. run.
  rewrite Hloc. destruct loc as [la lo], m; reflexivity.
Qed.

(** C4: when the first candidate of an autocomplete confirmation has
    geometry, the current position becomes its coordinate, the result
    list becomes the one-element list holding it and it becomes the
    selected place; when the first candidate has no geometry, or there
    is no candidate, the state does not change at all. *)
Theorem autocomplete_pick (st : State) :
  (forall place loc,
      first_candidate st = Some place -> geometry_location place = Some loc ->
      currentPosition (step st PlacesChanged) = Some loc
      /\ searchResults (step st PlacesChanged) = [place]
      /\ selectedPlace (step st PlacesChanged) = Some place)
  /\ (forall place,
        first_candidate st = Some place -> geometry_location place = None ->
        step st PlacesChanged = st)
  /\ (first_candidate st = None -> step st PlacesChanged = st).
Proof.
  split; [|split].
  - intros place loc Hc Hloc.
    unfold step, handler_of.
    rewrite (onPlacesChanged_located st place loc Hc Hloc).
    cbn. repeat split.
  - intros place Hc Hloc.
    unfold step, handler_of.
    rewrite (onPlacesChanged_unlocated st place Hc Hloc). reflexivity.
  - intros Hc.
    unfold step, handler_of.
    rewrite (onPlacesChanged_no_candidate st Hc). reflexivity.
Qed.

Lemma autocomplete_pick_witness :
  currentPosition (step picking PlacesChanged) =
    Some {| lat := 35.6813%float; lng := 139.7672%float |}
  /\ searchResults (step picking PlacesChanged) = [cafeA]
  /\ selectedPlace (step picking PlacesChanged) = Some cafeA.
Proof.
  exact (proj1 (autocomplete_pick picking) cafeA _ eq_refl eq_refl).
Defined.

(** The pick also pans the mounted map to the candidate. *)
Lemma autocomplete_pick_pans (st : State) (m : Map) (place : PlaceResult)
    (loc : LatLng) :
  map st = Some m -> first_candidate st = Some place ->
  geometry_location place = Some loc ->
  effects (onPlacesChanged st) = [PanTo m loc].
Proof.
  intros Hm Hc Hloc.
  rewrite (onPlacesChanged_located st place loc Hc Hloc), Hm. reflexivity.
Qed.

(** ** Frame of the search handlers *)

(** The callback of the search writes [searchResults] and nothing else. *)
Lemma search_response_frame (m : Map) (results : option (list PlaceResult))
    (status : PlacesServiceStatus) (st : State) :
  currentPosition (step st (SearchResponded m results status)) = currentPosition st
  /\ selectedPlace (step st (SearchResponded m results status)) = selectedPlace st
  /\ map (step st (SearchResponded m results status)) = map st
  /\ searchQuery (step st (SearchResponded m results status)) = searchQuery st
  /\ searchBoxRef (step st (SearchResponded m results status)) = searchBoxRef st.
Proof.
  destruct status, results as [[|r0 rest]|]; run; repeat split;
    destruct (geometry_location r0); reflexivity.
Qed.

(** [handleSearch] writes no state at all. *)
Lemma search_request_frame (st : State) : step st SearchRequested = st.
Proof.
  unfold step, handler_of.
  destruct (search_blocked st) eqn:Hb.
  - unfold handleSearch, bind, get. cbn. rewrite Hb. reflexivity.
  - destruct (handleSearch_sends st Hb) as (m & position & _ & _ & Hrun).
    rewrite Hrun. reflexivity.
Qed.

(** ** Selection *)


(** One event that is not a search response keeps the selection valid. *)
Lemma selection_valid_step (st : State) (ev : Event) :
  selection_valid st -> offered st ev -> is_search_response ev = false ->
  selection_valid (step st ev).
Proof.
  intros Hvalid Hoffered Hev. destruct ev; try discriminate Hev.
  - destruct geolocation as [[position|]|]; exact Hvalid.
  - unfold selection_valid in *. run.
    destruct google_maps, (currentPosition st); exact Hvalid.
  - exact Hvalid.
  - exact Hvalid.
  - rewrite search_request_frame. exact Hvalid.
  - unfold step, handler_of.
    destruct (first_candidate st) as [place|] eqn:Hc.
    + destruct (geometry_location place) as [loc|] eqn:Hloc.
      * rewrite (onPlacesChanged_located st place loc Hc Hloc).
        left. reflexivity.
      * rewrite (onPlacesChanged_unlocated st place Hc Hloc). exact Hvalid.
    + rewrite (onPlacesChanged_no_candidate st Hc). exact Hvalid.
  - destruct Hoffered as [Hin _]. exact Hin.
  - unfold selection_valid. run.
    destruct (geometry_location place); [destruct (map st)|]; exact Hoffered.
  - exact I.
Qed.

(** Along any sequence of events without a search response the
    selection stays valid. *)
Lemma selection_valid_along (evs : list Event) :
  forall st, selection_valid st -> offered_trace st evs ->
             selection_valid (run_events st evs).
Proof.
  induction evs as [|ev rest IH]; intros st Hvalid Htrace; [exact Hvalid|].
  destruct Htrace as (Hoffered & Hev & Hrest). cbn.
  apply IH; [|exact Hrest].
  now apply selection_valid_step.
Qed.

(** No handler writes the query text: the component never calls
    [setSearchQuery]. *)
Lemma query_never_written (st : State) (ev : Event) :
  searchQuery (step st ev) = searchQuery st.
Proof.
  destruct ev.
  - destruct geolocation as [[position|]|]; reflexivity.
  - run. destruct google_maps, (currentPosition st); reflexivity.
  - reflexivity.
  - reflexivity.
  - rewrite search_request_frame. reflexivity.
  - apply search_response_frame.
  - unfold step, handler_of.
    destruct (first_candidate st) as [place|] eqn:Hc.
    + destruct (geometry_location place) as [loc|] eqn:Hloc.
      * rewrite (onPlacesChanged_located st place loc Hc Hloc). reflexivity.
      * rewrite (onPlacesChanged_unlocated st place Hc Hloc). reflexivity.
    + rewrite (onPlacesChanged_no_candidate st Hc). reflexivity.
  - reflexivity.
  - run. destruct (geometry_location place); [destruct (map st)|]; reflexivity.
  - reflexivity.
Qed.

(** So from the initial state the query stays empty and [handleSearch]
    stays behind its guard. *)
Lemma search_blocked_from_initial (loaded failed : bool) (evs : list Event) :
  search_blocked (run_events (initial loaded failed) evs) = true.
Proof.
  apply search_blocked_true. right. left.
  assert (Hq : forall st, searchQuery (run_events st evs) = searchQuery st).
  { unfold run_events.
    induction evs as [|ev rest IH]; intros st; [reflexivity|].
    cbn [fold_left]. rewrite IH. apply query_never_written. }
  rewrite Hq. reflexivity.
Qed.



(** ** Marker click and row click *)

(** Every result marker of the view carries [markerClick] of a result
    that has a location, and every row carries [rowClick] of a result. *)
Lemma result_markers_handlers (results : list PlaceResult) (mk : Marker) :
  In mk (flat_map render_marker results) ->
  exists place,
    In place results
    /\ geometry_location place = Some (marker_position mk)
    /\ marker_onClick mk = Some (markerClick place).
Proof.
  induction results as [|r rest IH]; cbn; [intros []|].
  intros Hin. apply in_app_or in Hin. destruct Hin as [Hin|Hin].
  - unfold render_marker in Hin.
    destruct (geometry_location r) as [loc|] eqn:Hloc; [|destruct Hin].
    destruct Hin as [<-|[]]. exists r. cbn. auto.
  - destruct (IH Hin) as (place & Hp & Hrest). exists place. auto.
Qed.

Lemma rows_handlers (st : State) (row : Row) :
  In row (rows (render_list st)) ->
  exists place, In place (searchResults st) /\ row_onClick row = rowClick place.
Proof.
  cbn. intros Hin. apply in_map_iff in Hin.
  destruct Hin as (place & <- & Hp). exists place. auto.
Qed.

(** A marker click selects the place and does nothing to the map. *)
Lemma markerClick_run (place : PlaceResult) (st : State) :
  selectedPlace (state_of (markerClick place st)) = Some place
  /\ effects (markerClick place st) = [].
Proof. run. split; reflexivity. Qed.

(** A row click selects the place and, when the place has a location
    and the map is mounted, pans the map to it. *)
Lemma rowClick_run (place : PlaceResult) (st : State) :
  state_of (rowClick place st) = state_of (markerClick place st)
  /\ effects (rowClick place st) =
       match geometry_location place, map st with
       | Some target, Some m => [PanTo m target]
       | _, _ => []
       end.
Proof.
  run. destruct (geometry_location place); [destruct (map st)|];
    split; reflexivity.
Qed.

(** C3, on the code: with [cafeA] on display and the map mounted, both
    clicks select [cafeA], the row click pans the map to it, and the
    marker click does not pan. *)
Theorem marker_click_does_not_pan :
  In cafeA (searchResults listing)
  /\ selectedPlace (step listing (MarkerClicked cafeA)) = Some cafeA
  /\ selectedPlace (step listing (RowClicked cafeA)) = Some cafeA
  /\ pans (effects (rowClick cafeA listing)) =
       [ {| lat := 35.6813%float; lng := 139.7672%float |} ]
  /\ pans (effects (markerClick cafeA listing)) = [].
Proof.
  split; [left; reflexivity|].
  destruct (rowClick_run cafeA listing) as [Hst Hlog].
  destruct (markerClick_run cafeA listing) as [Hsel Hnone].
  split; [exact Hsel|].
  split; [unfold step, handler_of; rewrite Hst; exact Hsel|].
  rewrite Hlog, Hnone. split; reflexivity.
Qed.

(** ** The overlay *)

(** C8, as stated, fails twice: a selected place without geometry (a
    row click on such a result) gets no overlay although the map is
    shown; a selected place whose rating is the number 0 gets an overlay
    without the rating line. *)
Lemma overlay_needs_geometry_and_nonzero_rating :
  selectedPlace (step listing (RowClicked kiosk)) = Some kiosk
  /\ overlay (render (step listing (RowClicked kiosk))) = None
  /\ selectedPlace (step listing (MarkerClicked stall)) = Some stall
  /\ rating stall = Some 0%float
  /\ option_map info_rating (overlay (render (step listing (MarkerClicked stall))))
       = Some (BareNumber 0%float).
Proof. repeat split. Qed.

(** C8, amended: whenever the map is shown (SDK loaded without error,
    current position known) and the selected place is set, then: if the
    place has a coordinate, an overlay anchored at that coordinate is
    rendered; it shows the name, the vicinity text when that is a
    non-empty text and the formatted address otherwise, the rating with
    the rating count whenever the rating is present and is neither 0 nor
    NaN, the bare number without the count for a rating of 0 or NaN,
    nothing for an absent rating, and a link to the provider's page of
    the place built from its name and id; its close action is
    [closeClick].  If the place has no geometry, no overlay is
    rendered. *)
Theorem overlay_of_selected_place (st : State) (position : LatLng)
    (place : PlaceResult) :
  loadError st = false -> isLoaded st = true ->
  currentPosition st = Some position ->
  selectedPlace st = Some place ->
  (forall loc,
      geometry_location place = Some loc ->
      exists w,
        overlay (render st) = Some w
        /\ info_position w = loc
        /\ info_heading w = name place
        /\ (forall v, vicinity place = Some v -> v <> "" ->
            info_address w = Some v)
        /\ (vicinity place = None \/ vicinity place = Some "" ->
            info_address w = formatted_address place)
        /\ (forall r,
              rating place = Some r ->
              PrimFloat.eqb r 0%float = false -> PrimFloat.is_nan r = false ->
              info_rating w = RatingLine r (user_ratings_total place))
        /\ (forall r,
              rating place = Some r ->
              PrimFloat.eqb r 0%float = true \/ PrimFloat.is_nan r = true ->
              info_rating w = BareNumber r)
        /\ (rating place = None -> info_rating w = NoRating)
        /\ info_href w =
             ("https://www.google.com/maps/search/?api=1&query="
              ++ interpolate (name place) ++ "&query_place_id="
              ++ interpolate (place_id place))%string
        /\ info_onCloseClick w = closeClick)
  /\ (geometry_location place = None -> overlay (render st) = None).
Proof.
  intros Herr Hloaded Hpos Hsel.
  unfold render, render_map, render_info_window, overlay.
  rewrite Herr, Hloaded, Hpos, Hsel. cbn. split.
  - intros loc Hloc. rewrite Hloc.
    eexists. split; [reflexivity|]. cbn.
    split; [reflexivity|]. split; [reflexivity|]. split; [|split].
    + intros v Hv Hne. rewrite Hv. cbn.
      destruct v; [contradiction Hne; reflexivity | reflexivity].
    + intros [Hv|Hv]; rewrite Hv; reflexivity.
    + unfold rating_node, truthy_number. split; [|split; [|split]].
      * intros r Hr Hzero Hnan. rewrite Hr, Hzero, Hnan. reflexivity.
      * intros r Hr [Hzero|Hnan]; rewrite Hr.
        -- rewrite Hzero. reflexivity.
        -- rewrite Hnan, orb_true_r. reflexivity.
      * intros Hr. rewrite Hr. reflexivity.
      * split; reflexivity.
  - intros Hloc. rewrite Hloc. reflexivity.
Qed.

Lemma overlay_of_selected_place_witness :
  (exists w,
      overlay (render picked) = Some w
      /\ info_position w = {| lat := 35.6813%float; lng := 139.7672%float |}
      /\ info_heading w = Some "Cafe A"
      /\ info_address w = Some "1 Marunouchi"
      /\ info_rating w = RatingLine 4.5%float (Some 120%float)
      /\ info_href w =
           "https://www.google.com/maps/search/?api=1&query=Cafe A&query_place_id=p1")
  /\ overlay (render (step listing (RowClicked kiosk))) = None.
Proof.
  split.
  - destruct (proj1 (overlay_of_selected_place picked
                       {| lat := 35.6813%float; lng := 139.7672%float |} cafeA
                       eq_refl eq_refl eq_refl eq_refl)
                {| lat := 35.6813%float; lng := 139.7672%float |} eq_refl)
      as (w & Hw & Hpos & Hname & Hvic & _ & Hrate & _ & _ & Href & _).
    exists w. split; [exact Hw|]. split; [exact Hpos|]. split; [exact Hname|].
    split; [apply Hvic; [reflexivity | discriminate]|].
    split; [apply Hrate; reflexivity|]. exact Href.
  - exact (proj2 (overlay_of_selected_place (step listing (RowClicked kiosk))
                    defaultPosition kiosk eq_refl eq_refl eq_refl eq_refl)
             eq_refl).
Defined.

(** ** The current position *)

(** C10: a keyword search never changes the current position, neither
    the guarded no-op, nor the request, nor the callback on success or
    on failure; and every event that is neither the geolocation step nor
    an autocomplete pick whose first candidate has geometry leaves the
    current position as it was. *)
Theorem position_changes_only_by_acquisition_or_pick (st : State) (ev : Event) :
  (is_search_request ev = true \/ is_search_response ev = true ->
   currentPosition (step st ev) = currentPosition st)
  /\ (is_acquisition ev = false -> is_located_pick st ev = false ->
      currentPosition (step st ev) = currentPosition st).
Proof.
  assert (Hframe : is_acquisition ev = false -> is_located_pick st ev = false ->
                   currentPosition (step st ev) = currentPosition st).
  { intros Hacq Hpick. destruct ev; try discriminate Hacq.
    - run. destruct google_maps, (currentPosition st); reflexivity.
    - reflexivity.
    - reflexivity.
    - rewrite search_request_frame. reflexivity.
    - apply search_response_frame.
    - cbn in Hpick. unfold step, handler_of.
      destruct (first_candidate st) as [place|] eqn:Hc.
      + destruct (geometry_location place) as [loc|] eqn:Hloc;
          [discriminate Hpick|].
        rewrite (onPlacesChanged_unlocated st place Hc Hloc). reflexivity.
      + rewrite (onPlacesChanged_no_candidate st Hc). reflexivity.
    - reflexivity.
    - run. destruct (geometry_location place); [destruct (map st)|]; reflexivity.
    - reflexivity. }
  split; [|exact Hframe].
  intros [Hev|Hev]; destruct ev; try discriminate Hev; apply Hframe; reflexivity.
Qed.

Lemma position_changes_only_by_acquisition_or_pick_witness :
  currentPosition (step ready SearchRequested) = currentPosition ready
  /\ currentPosition (step ready (SearchResponded theMap (Some [cafeA]) OK)) =
       currentPosition ready
  /\ currentPosition (step listing (RowClicked cafeA)) = currentPosition listing.
Proof.
  split; [|split].
  - apply (proj1 (position_changes_only_by_acquisition_or_pick ready SearchRequested)).
    left. reflexivity.
  - apply (proj1 (position_changes_only_by_acquisition_or_pick ready
                    (SearchResponded theMap (Some [cafeA]) OK))).
    right. reflexivity.
  - apply (proj2 (position_changes_only_by_acquisition_or_pick listing
                    (RowClicked cafeA)));
      reflexivity.
Defined.

(** * Further properties of the handlers *)

(** ** The request of a keyword search *)

(** The guard lets a search through when all four conditions hold. *)
Lemma search_open (st : State) (m : Map) (position : LatLng) :
  map st = Some m -> currentPosition st = Some position ->
  searchQuery st <> "" -> isLoaded st = true ->
  search_blocked st = false.
Proof.
  intros Hm Hpos Hquery Hloaded.
  destruct (search_blocked st) eqn:Hb; [|reflexivity].
  apply search_blocked_true in Hb.
  destruct Hb as [Hb|[Hb|[Hb|Hb]]]; congruence.
Qed.

(** X1: with a mounted map, a known position, a non-empty query and a
    loaded SDK, [handleSearch] sends exactly one nearby-search request
    on that map, centred on the current position, with radius 5000 and
    the query as keyword; it writes no state and raises no alert. *)
Theorem search_sends_one_request (st : State) (m : Map) (position : LatLng) :
  map st = Some m -> currentPosition st = Some position ->
  searchQuery st <> "" -> isLoaded st = true ->
  handleSearch st =
    (Normal tt, st,
     [NearbySearch m {| req_location := position; req_radius := 5000%float;
                        req_keyword := searchQuery st |}]).
Proof.
  intros Hm Hpos Hquery Hloaded.
  pose proof (search_open st m position Hm Hpos Hquery Hloaded) as Hb.
  destruct (handleSearch_sends st Hb) as (m' & position' & Hm' & Hpos' & Hrun).
  rewrite Hrun. congruence.
Qed.

Lemma search_sends_one_request_witness :
  handleSearch ready =
    (Normal tt, ready,
     [NearbySearch theMap {| req_location := defaultPosition;
                             req_radius := 5000%float;
                             req_keyword := "coffee" |}]).
Proof.
  apply (search_sends_one_request ready theMap defaultPosition);
    [reflexivity | reflexivity | discriminate | reflexivity].
Defined.

(** X2: no handler of the component writes the query text, so after any
    sequence of events from the initial state the query is still empty
    and [handleSearch] sends no request and changes nothing. *)
Theorem search_unreachable_from_initial (loaded failed : bool)
    (evs : list Event) :
  searchQuery (run_events (initial loaded failed) evs) = ""
  /\ handleSearch (run_events (initial loaded failed) evs) =
       (Normal tt, run_events (initial loaded failed) evs, []).
Proof.
  split.
  - assert (Hq : forall st, searchQuery (run_events st evs) = searchQuery st).
    { unfold run_events.
      induction evs as [|ev rest IH]; intros st; [reflexivity|].
      cbn [fold_left]. rewrite IH. apply query_never_written. }
    rewrite Hq. reflexivity.
  - unfold handleSearch, bind, get. cbn.
    rewrite (search_blocked_from_initial loaded failed evs). reflexivity.
Qed.

(** ** The current position is never unset *)

(** One event keeps a known position known. *)
Lemma position_set_step (st : State) (ev : Event) :
  currentPosition st <> None -> currentPosition (step st ev) <> None.
Proof.
  intros Hset. destruct ev.
  - destruct geolocation as [[position|]|]; discriminate.
  - run. destruct google_maps, (currentPosition st); exact Hset.
  - exact Hset.
  - exact Hset.
  - rewrite search_request_frame. exact Hset.
  - rewrite (proj1 (search_response_frame m results status st)). exact Hset.
  - unfold step, handler_of.
    destruct (first_candidate st) as [place|] eqn:Hc.
    + destruct (geometry_location place) as [loc|] eqn:Hloc.
      * rewrite (onPlacesChanged_located st place loc Hc Hloc). discriminate.
      * rewrite (onPlacesChanged_unlocated st place Hc Hloc). exact Hset.
    + rewrite (onPlacesChanged_no_candidate st Hc). exact Hset.
  - exact Hset.
  - run. destruct (geometry_location place); [destruct (map st)|]; exact Hset.
  - exact Hset.
Qed.

(** X3: once the current position is known, no sequence of events makes
    it unknown again, so the map pane never goes back to the message
    shown while the position is being looked up. *)
Theorem position_stays_set (evs : list Event) (st : State) :
  currentPosition st <> None ->
  currentPosition (run_events st evs) <> None
  /\ (forall message, render_map (run_events st evs) <> Locating message).
Proof.
  intros Hset.
  assert (Hkeep : currentPosition (run_events st evs) <> None).
  { revert st Hset. unfold run_events.
    induction evs as [|ev rest IH]; intros st Hset; [exact Hset|].
    cbn [fold_left]. apply IH. now apply position_set_step. }
  split; [exact Hkeep|].
  intros message. unfold render_map.
  destruct (currentPosition (run_events st evs)); [discriminate|].
  now contradiction Hkeep.
Qed.

Lemma position_stays_set_witness :
  currentPosition (run_events idle [PlacesChanged; MapUnmounted; Mounted None]) <> None
  /\ (forall message,
         render_map (run_events idle [PlacesChanged; MapUnmounted; Mounted None])
         <> Locating message).
Proof.
  apply (position_stays_set [PlacesChanged; MapUnmounted; Mounted None] idle).
  discriminate.
Defined.

(** ** Edge cases of the search callback *)

(** X4: a response without a result list ([null]) is handled as a
    failure whatever its status, OK included: the result list is
    emptied, the alert names the status, and the map does not pan. *)
Theorem null_results_handled_as_failure (m : Map)
    (status : PlacesServiceStatus) (st : State) :
  searchResults (state_of (nearbySearchCallback m None status st)) = []
  /\ alerts (effects (nearbySearchCallback m None status st)) =
       [("スポット検索に失敗しました: " ++ status_text status)%string]
  /\ pans (effects (nearbySearchCallback m None status st)) = []
  /\ completion (nearbySearchCallback m None status st) = Normal tt.
Proof.
  destruct status; run; repeat split.
Qed.

(** X5: the callback on an OK response completes normally exactly when
    the list has an entry; on an empty list it stores the list and then
    throws a TypeError, with no alert and no pan. *)
Theorem ok_response_completes_iff_nonempty (m : Map)
    (results : list PlaceResult) (st : State) :
  (completion (nearbySearchCallback m (Some results) OK st) = Normal tt
   <-> results <> [])
  /\ (results = [] ->
      (exists reading,
          completion (nearbySearchCallback m (Some results) OK st)
          = Throw (TypeError reading))
      /\ searchResults (state_of (nearbySearchCallback m (Some results) OK st)) = []
      /\ effects (nearbySearchCallback m (Some results) OK st) = []).
Proof.
  split.
  - destruct results as [|r0 rest]; run.
    + split; [discriminate | intros H; now contradiction H].
    + destruct (geometry_location r0); split;
        first [reflexivity | discriminate].
  - intros ->. run. split; [eexists; reflexivity|]. split; reflexivity.
Qed.

Lemma ok_response_completes_iff_nonempty_witness :
  completion (nearbySearchCallback theMap (Some [kiosk]) OK ready) = Normal tt
  /\ (exists reading,
         completion (nearbySearchCallback theMap (Some []) OK ready)
         = Throw (TypeError reading)).
Proof.
  split.
  - apply (proj1 (ok_response_completes_iff_nonempty theMap [kiosk] ready)).
    discriminate.
  - apply (proj2 (ok_response_completes_iff_nonempty theMap [] ready) eq_refl).
Defined.

(** ** The view mirrors the result list *)

Lemma render_marker_located (place : PlaceResult) :
  located place = true ->
  exists loc,
    geometry_location place = Some loc
    /\ render_marker place =
         [ {| marker_key := place_id place; marker_position := loc;
              marker_title := name place; marker_label := None;
              marker_onClick := Some (markerClick place) |} ].
Proof.
  unfold located, render_marker.
  destruct (geometry_location place) as [loc|]; [|discriminate].
  intros _. exists loc. split; reflexivity.
Qed.

Lemma render_marker_unlocated (place : PlaceResult) :
  located place = false -> render_marker place = [].
Proof.
  unfold located, render_marker.
  destruct (geometry_location place); [discriminate | reflexivity].
Qed.

(** X6: the map shows one marker for each result that has a location,
    in the order of the result list, keyed by the place id, titled with
    the name and placed at the location; results without a location get
    no marker, so there are never more markers than results. *)
Theorem markers_mirror_located_results (st : State) (g : GoogleMap) :
  render_map st = MapShown g ->
  List.map marker_key (result_markers g)
    = List.map place_id (filter located (searchResults st))
  /\ List.map marker_title (result_markers g)
     = List.map name (filter located (searchResults st))
  /\ List.map (fun mk => Some (marker_position mk)) (result_markers g)
     = List.map geometry_location (filter located (searchResults st))
  /\ length (result_markers g) <= length (searchResults st).
Proof.
  unfold render_map. destruct (currentPosition st) as [position|]; [|discriminate].
  intros Hg. injection Hg as <-. cbn [result_markers].
  induction (searchResults st) as [|r rest IH]; [repeat split; constructor|].
  destruct IH as (Hkeys & Htitles & Hpos & Hlen).
  cbn [flat_map filter]. destruct (located r) eqn:Hr.
  - destruct (render_marker_located r Hr) as (loc & Hloc & ->).
    cbn. rewrite Hkeys, Htitles, Hpos, Hloc.
    repeat split. now apply le_n_S.
  - rewrite (render_marker_unlocated r Hr). cbn.
    repeat split; try assumption. now apply le_S.
Qed.

Lemma markers_mirror_located_results_witness :
  exists g,
    render_map listing = MapShown g
    /\ List.map marker_key (result_markers g) = [Some "p1"; Some "p4"]
    /\ length (result_markers g) <= 3.
Proof.
  eexists. split; [reflexivity|].
  split.
  - apply (markers_mirror_located_results listing _ eq_refl).
  - apply (markers_mirror_located_results listing _ eq_refl).
Defined.

(** X7: the side list has one row per result, in order, and its heading
    counts the rows; the message for an empty list is shown exactly when
    there is no row. *)
Theorem list_mirrors_results (st : State) :
  List.map row_key (rows (render_list st)) = List.map place_id (searchResults st)
  /\ List.map row_name (rows (render_list st)) = List.map name (searchResults st)
  /\ result_count (render_list st) = length (rows (render_list st))
  /\ (empty_message (render_list st) <> None <-> rows (render_list st) = []).
Proof.
  unfold render_list. cbn [rows result_count empty_message].
  rewrite !map_map, length_map. cbn.
  split; [reflexivity|]. split; [reflexivity|]. split; [reflexivity|].
  destruct (searchResults st) as [|r rest]; cbn; split;
    first [reflexivity | discriminate | intros H; now contradiction H].
Qed.

(** ** Row highlight *)

Lemma strict_eq_true (a b : option string) : strict_eq a b = true <-> a = b.
Proof.
  destruct a as [x|], b as [y|]; cbn; split; intros H;
    try reflexivity; try discriminate.
  - apply String.eqb_eq in H. now subst.
  - injection H as ->. apply String.eqb_refl.
Qed.

(** X8: a row is highlighted exactly when its place id is the id of the
    selected place.  So the row of the selected place is highlighted,
    together with every other row of the same id; and while nothing is
    selected the highlighted rows are those of results without an id. *)
Theorem row_highlighted_iff_same_id (selected : option PlaceResult)
    (place : PlaceResult) :
  (row_highlighted (render_row selected place) = true
   <-> selected_id selected = place_id place)
  /\ (selected = Some place ->
      row_highlighted (render_row selected place) = true)
  /\ (selected = None ->
      (row_highlighted (render_row selected place) = true
       <-> place_id place = None)).
Proof.
  assert (Hiff : row_highlighted (render_row selected place) = true
                 <-> selected_id selected = place_id place).
  { cbn [render_row row_highlighted]. apply strict_eq_true. }
  split; [exact Hiff|]. split.
  - intros ->. apply Hiff. reflexivity.
  - intros ->. rewrite Hiff. cbn. split; intros H; now symmetry.
Qed.

Lemma row_highlighted_iff_same_id_witness :
  row_highlighted (render_row (Some cafeA) cafeA) = true
  /\ row_highlighted (render_row (Some cafeA) cafeB) <> true.
Proof.
  split.
  - apply (proj1 (proj2 (row_highlighted_iff_same_id (Some cafeA) cafeA))).
    reflexivity.
  - intros H.
    apply (proj1 (row_highlighted_iff_same_id (Some cafeA) cafeB)) in H.
    discriminate H.
Defined.

(** ** Opening and closing the overlay *)

(** Where a result marker of the view comes from. *)
Lemma result_marker_origin (results : list PlaceResult) (mk : Marker) :
  In mk (flat_map render_marker results) ->
  exists place loc,
    In place results /\ geometry_location place = Some loc
    /\ mk = {| marker_key := place_id place; marker_position := loc;
               marker_title := name place; marker_label := None;
               marker_onClick := Some (markerClick place) |}.
Proof.
  induction results as [|r rest IH]; cbn [flat_map]; [intros []|].
  intros Hin. apply in_app_or in Hin. destruct Hin as [Hin|Hin].
  - destruct (located r) eqn:Hr.
    + destruct (render_marker_located r Hr) as (loc & Hloc & Hmk).
      rewrite Hmk in Hin. destruct Hin as [<-|[]].
      exists r, loc. split; [left; reflexivity|]. split; [exact Hloc | reflexivity].
    + rewrite (render_marker_unlocated r Hr) in Hin. destruct Hin.
  - destruct (IH Hin) as (place & loc & Hp & Hrest).
    exists place, loc. split; [right; exact Hp | exact Hrest].
Qed.

(** X9: with the map shown, clicking any result marker of the view
    opens the overlay at that marker's position, headed by the marker's
    title. *)
Theorem marker_click_opens_overlay (st : State) (g : GoogleMap) (mk : Marker)
    (h : Handler unit) :
  loadError st = false -> isLoaded st = true ->
  render_map st = MapShown g -> In mk (result_markers g) ->
  marker_onClick mk = Some h ->
  exists w,
    overlay (render (state_of (h st))) = Some w
    /\ info_position w = marker_position mk
    /\ info_heading w = marker_title mk.
Proof.
  intros Herr Hloaded Hg Hin Hclick.
  unfold render_map in Hg.
  destruct (currentPosition st) as [position|] eqn:Hpos; [|discriminate].
  injection Hg as <-. cbn [result_markers] in Hin.
  destruct (result_marker_origin _ _ Hin) as (place & loc & _ & Hloc & ->).
  cbn in Hclick. injection Hclick as <-.
  unfold render, render_map, overlay, render_info_window. run.
  rewrite Herr, Hloaded, Hpos, Hloc. cbn.
  eexists. split; [reflexivity|]. cbn. split; reflexivity.
Qed.

Lemma marker_click_opens_overlay_witness :
  exists w,
    overlay (render (state_of (markerClick cafeA listing))) = Some w
    /\ info_position w = {| lat := 35.6813%float; lng := 139.7672%float |}
    /\ info_heading w = Some "Cafe A".
Proof.
  refine (marker_click_opens_overlay listing _ cafeA_marker (markerClick cafeA)
            eq_refl eq_refl eq_refl _ eq_refl).
  left. reflexivity.
Defined.

(** ** What an autocomplete pick leads to *)

(** X10: after an autocomplete pick of a candidate with a location, with
    the SDK loaded, the view shows the map centred on the candidate, the
    overlay open at the candidate's location under its name, and a list
    of one row, the candidate's, highlighted. *)
Theorem pick_opens_overlay (st : State) (place : PlaceResult) (loc : LatLng) :
  loadError st = false -> isLoaded st = true ->
  first_candidate st = Some place -> geometry_location place = Some loc ->
  exists g w,
    render (step st PlacesChanged)
      = Page (MapShown g) (render_list (step st PlacesChanged))
    /\ center g = loc
    /\ info_window g = Some w
    /\ info_position w = loc
    /\ info_heading w = name place
    /\ List.map row_key (rows (render_list (step st PlacesChanged)))
       = [place_id place]
    /\ List.map row_highlighted (rows (render_list (step st PlacesChanged)))
       = [true].
Proof.
  intros Herr Hloaded Hc Hloc.
  unfold step, handler_of.
  rewrite (onPlacesChanged_located st place loc Hc Hloc).
  unfold render, render_map, render_list, render_info_window, state_of.
  cbn. rewrite Herr, Hloaded, Hloc. cbn.
  do 2 eexists. split; [reflexivity|]. cbn.
  repeat split.
  f_equal. apply strict_eq_true. reflexivity.
Qed.

Lemma pick_opens_overlay_witness :
  exists g w,
    render (step picking PlacesChanged)
      = Page (MapShown g) (render_list (step picking PlacesChanged))
    /\ center g = {| lat := 35.6813%float; lng := 139.7672%float |}
    /\ info_window g = Some w
    /\ info_position w = {| lat := 35.6813%float; lng := 139.7672%float |}
    /\ info_heading w = Some "Cafe A"
    /\ List.map row_key (rows (render_list (step picking PlacesChanged)))
       = [Some "p1"]
    /\ List.map row_highlighted (rows (render_list (step picking PlacesChanged)))
       = [true].
Proof.
  exact (pick_opens_overlay picking cafeA _ eq_refl eq_refl eq_refl eq_refl).
Defined.

(** X11: an autocomplete pick moves the centre of the next keyword
    search: with a mounted map, a non-empty query and the SDK loaded, the
    search made after picking a candidate with a location asks for the
    places around that location. *)
Theorem pick_recentres_next_search (st : State) (m : Map)
    (place : PlaceResult) (loc : LatLng) :
  map st = Some m -> searchQuery st <> "" -> isLoaded st = true ->
  first_candidate st = Some place -> geometry_location place = Some loc ->
  effects (handleSearch (step st PlacesChanged)) =
    [NearbySearch m {| req_location := loc; req_radius := 5000%float;
                       req_keyword := searchQuery st |}].
Proof.
  intros Hm Hquery Hloaded Hc Hloc.
  assert (Hst : step st PlacesChanged =
                {| currentPosition := Some loc; map := map st;
                   searchQuery := searchQuery st; searchResults := [place];
                   selectedPlace := Some place; searchBoxRef := searchBoxRef st;
                   isLoaded := isLoaded st; loadError := loadError st |}).
  { unfold step, handler_of.
    rewrite (onPlacesChanged_located st place loc Hc Hloc). reflexivity. }
  assert (Hb : search_blocked (step st PlacesChanged) = false).
  { apply (search_open _ m loc); rewrite Hst; cbn; assumption || reflexivity. }
  destruct (handleSearch_sends _ Hb) as (m' & position' & Hm' & Hpos' & Hrun).
  rewrite Hrun. rewrite Hst in Hm', Hpos' |- *. cbn in Hm', Hpos' |- *.
  congruence.
Qed.

Lemma pick_recentres_next_search_witness :
  effects (handleSearch (step picking PlacesChanged)) =
    [NearbySearch theMap
       {| req_location := {| lat := 35.6813%float; lng := 139.7672%float |};
          req_radius := 5000%float; req_keyword := "coffee" |}].
Proof.
  apply (pick_recentres_next_search picking theMap cafeA);
    [reflexivity | discriminate | reflexivity | reflexivity | reflexivity].
Defined.

(** ** Round trips *)

(** X12: unmounting the map after mounting it leaves the state that
    unmounting alone gives; when no map was mounted before, the mount
    followed by the unmount gives back the state before the mount. *)
Theorem unmount_undoes_load (st : State) (m : Map) (google_maps : bool) :
  step (step st (MapLoaded m google_maps)) MapUnmounted = step st MapUnmounted
  /\ (map st = None ->
      step (step st (MapLoaded m google_maps)) MapUnmounted = st).
Proof.
  destruct st as [position mounted query results selected box loaded failed].
  split.
  - run. destruct google_maps, position; reflexivity.
  - cbn. intros ->. run. destruct google_maps, position; reflexivity.
Qed.

Lemma unmount_undoes_load_witness :
  step (step (initial true false) (MapLoaded theMap true)) MapUnmounted
  = initial true false.
Proof.
  exact (proj2 (unmount_undoes_load (initial true false) theMap true) eq_refl).
Defined.

(** X13: closing the overlay after a marker click or a row click leaves
    the state that closing alone gives; when nothing was selected before,
    the click followed by the close gives back the state before the
    click. *)
Theorem close_undoes_select (st : State) (place : PlaceResult) :
  step (step st (MarkerClicked place)) OverlayClosed = step st OverlayClosed
  /\ step (step st (RowClicked place)) OverlayClosed = step st OverlayClosed
  /\ (selectedPlace st = None ->
      step (step st (MarkerClicked place)) OverlayClosed = st
      /\ step (step st (RowClicked place)) OverlayClosed = st).
Proof.
  destruct st as [position mounted query results selected box loaded failed].
  assert (Hrow : step (step (mkState position mounted query results selected
                               box loaded failed) (RowClicked place))
                   OverlayClosed
                 = mkState position mounted query results None box loaded failed).
  { run. destruct (geometry_location place); [destruct mounted|]; reflexivity. }
  split; [reflexivity|]. split; [exact Hrow|].
  cbn. intros ->. split; [reflexivity | exact Hrow].
Qed.

Lemma close_undoes_select_witness :
  step (step listing (MarkerClicked cafeA)) OverlayClosed = listing
  /\ step (step listing (RowClicked cafeA)) OverlayClosed = listing.
Proof.
  exact (proj2 (proj2 (close_undoes_select listing cafeA)) eq_refl).
Defined.

(** ** No map, no call on a map *)

(** X14: while no map is mounted, no handler calls a map: a row click
    and an autocomplete pick update the state without panning, and a
    search is not sent.  (The mount of the map and the callback of a
    request made earlier bring their own map instance.) *)
Theorem no_map_no_map_calls (st : State) (ev : Event) :
  map st = None -> carries_map ev = false ->
  filter touches_map (effects (handler_of ev st)) = [].
Proof.
  intros Hm Hev. destruct ev; try discriminate Hev.
  - destruct geolocation as [[position|]|]; reflexivity.
  - reflexivity.
  - reflexivity.
  - assert (Hb : search_blocked st = true).
    { apply search_blocked_true. left. exact Hm. }
    cbn [handler_of]. unfold handleSearch, bind, get. cbn.
    rewrite Hb. reflexivity.
  - cbn [handler_of].
    destruct (first_candidate st) as [place|] eqn:Hc.
    + destruct (geometry_location place) as [loc|] eqn:Hloc.
      * rewrite (onPlacesChanged_located st place loc Hc Hloc), Hm. reflexivity.
      * rewrite (onPlacesChanged_unlocated st place Hc Hloc). reflexivity.
    + rewrite (onPlacesChanged_no_candidate st Hc). reflexivity.
  - reflexivity.
  - cbn [handler_of].
    rewrite (proj2 (rowClick_run place st)), Hm.
    destruct (geometry_location place); reflexivity.
  - reflexivity.
Qed.

Lemma no_map_no_map_calls_witness :
  filter touches_map (effects (handler_of (RowClicked cafeA) (initial true false)))
  = [].
Proof.
  apply (no_map_no_map_calls (initial true false) (RowClicked cafeA));
    reflexivity.
Defined.

(** ** Location acquisition *)

(** X15: the geolocation step writes the current position and nothing
    else; it never raises an alert and never calls a map; it logs (a
    console warning) exactly when the request failed, not when the
    browser has no geolocation. *)
Theorem acquisition_writes_position_only
    (geolocation : option GeolocationOutcome) (st : State) :
  map (step st (Mounted geolocation)) = map st
  /\ searchQuery (step st (Mounted geolocation)) = searchQuery st
  /\ searchResults (step st (Mounted geolocation)) = searchResults st
  /\ selectedPlace (step st (Mounted geolocation)) = selectedPlace st
  /\ searchBoxRef (step st (Mounted geolocation)) = searchBoxRef st
  /\ alerts (effects (acquirePosition geolocation st)) = []
  /\ filter touches_map (effects (acquirePosition geolocation st)) = []
  /\ (effects (acquirePosition geolocation st) <> []
      <-> geolocation = Some GeoFailure)
  /\ (geolocation = Some GeoFailure ->
      effects (acquirePosition geolocation st)
      = [ConsoleWarn "現在地の取得に失敗しました。"]).
Proof.
  destruct geolocation as [[position|]|]; run;
    do 7 (split; [reflexivity|]); (split; [split|]); intros H;
    first [ discriminate H
          | exfalso; apply H; reflexivity
          | reflexivity
          | intros Hnil; discriminate Hnil ].
Qed.

(** ** The selection along a session *)

(** X16: from the initial state, along any sequence of events that the
    view offers and that holds no search response, the selected place is
    none or one of the results. *)
Theorem selection_valid_from_initial (loaded failed : bool)
    (evs : list Event) :
  offered_trace (initial loaded failed) evs ->
  selection_valid (run_events (initial loaded failed) evs).
Proof.
  intros Htrace. apply selection_valid_along; [exact I | exact Htrace].
Qed.

Lemma selection_valid_from_initial_witness :
  selection_valid (run_events (initial true false) session).
Proof.
  apply (selection_valid_from_initial true false session).
  cbn. repeat split. left. reflexivity. discriminate.
Defined.

(** ** The application shell *)

(** X17: [App] mounts [MapSearch] exactly when the configured key is a
    non-empty string, and then hands it that very key, which is the key
    given to the SDK loader; with no key, or an empty one, it shows the
    error block and mounts nothing. *)
Theorem app_mounts_search_iff_key (env_key : option string) :
  (forall title props,
      App env_key = Shell title props ->
      env_key = Some (apiKey props) /\ apiKey props <> ""
      /\ googleMapsApiKey (loader_options props) = apiKey props)
  /\ (forall key,
        env_key = Some key -> key <> "" ->
        exists title, App env_key = Shell title {| apiKey := key |})
  /\ (env_key = None \/ env_key = Some "" ->
      exists heading hint, App env_key = KeyMissing heading hint).
Proof.
  split; [|split].
  - intros title props Happ. unfold App in Happ.
    destruct env_key as [[|c key]|]; cbn in Happ; try discriminate Happ.
    injection Happ as _ <-. cbn. repeat split. discriminate.
  - intros key -> Hkey. unfold App.
    destruct key as [|c key]; [now contradiction Hkey|].
    eexists. reflexivity.
  - intros [->| ->]; do 2 eexists; reflexivity.
Qed.

Lemma app_mounts_search_iff_key_witness :
  (exists title, App (Some "k-123") = Shell title {| apiKey := "k-123" |})
  /\ (exists heading hint, App (Some "") = KeyMissing heading hint).
Proof.
  split.
  - apply (proj1 (proj2 (app_mounts_search_iff_key (Some "k-123"))) "k-123");
      [reflexivity | discriminate].
  - apply (proj2 (proj2 (app_mounts_search_iff_key (Some "")))).
    right. reflexivity.
Defined.

End MapSearch.
